(** * generate.py: static site generator for a single-service, multi-city site

    A shallow embedding of [generate.py] and the verification of its
    specification.  Python strings are sequences of Unicode code points,
    so [len], slicing and [strip] count code points, not bytes. *)

From Stdlib Require Import List NArith ZArith String Ascii Bool Lia DecimalString.
Import ListNotations.

Open Scope N_scope.

(** ** Python [str] *)

Module PyStr.

Definition pystr := list N.

(** Code points of a UTF-8 byte sequence ([acc] holds the bits read so far of
    a multi-byte sequence, [more] the number of continuation bytes awaited). *)
Fixpoint utf8 (acc : N) (more : nat) (bs : list N) : pystr :=
  match bs with
  | [] => []
  | b :: t =>
      match more with
      | O =>
          if b <? 128 then b :: utf8 0 O t
          else if b <? 224 then utf8 (b - 192) 1 t
          else if b <? 240 then utf8 (b - 224) 2 t
          else utf8 (b - 240) 3 t
      | S O => (acc * 64 + (b - 128)) :: utf8 0 O t
      | S k => utf8 (acc * 64 + (b - 128)) k t
      end
  end.

(** A literal of the source: the code points of the UTF-8 text. *)
Definition py (s : string) : pystr :=
  utf8 0 O (map N_of_ascii (list_ascii_of_string s)).
Arguments py s%_string.

(** A literal of the source that holds double quotes (the HTML and XML
    templates).  It is written here with a backquote (U+0060) wherever the
    source has a double quote (U+0022); generate.py has no backquote. *)
Definition tpl (s : string) : pystr :=
  map (fun c => if c =? 96 then 34 else c) (py s).
Arguments tpl s%_string.

Definition len (s : pystr) : Z := Z.of_nat (List.length s).

Fixpoint eqb (a b : pystr) : bool :=
  match a, b with
  | [], [] => true
  | x :: a', y :: b' => (x =? y) && eqb a' b'
  | _, _ => false
  end.

(** [s.startswith(p)] *)
Fixpoint startswith (p s : pystr) : bool :=
  match p, s with
  | [], _ => true
  | x :: p', y :: s' => (x =? y) && startswith p' s'
  | _ :: _, [] => false
  end.

(** [p in s] *)
Fixpoint contains (p s : pystr) : bool :=
  match s with
  | [] => startswith p []
  | _ :: t => startswith p s || contains p t
  end.

(** Number of positions of [s] at which [p] starts. *)
Fixpoint occurrences (p s : pystr) : nat :=
  match s with
  | [] => O
  | _ :: t => ((if startswith p s then 1 else 0) + occurrences p t)%nat
  end.

(** [s.replace(c, rep)] for a one-character [c]. *)
Definition replace_char (c : N) (rep : pystr) (s : pystr) : pystr :=
  flat_map (fun x => if x =? c then rep else [x]) s.

(** [str.isspace] of one code point: the Unicode white space of Python 3. *)
Definition isspace (c : N) : bool :=
  ((9 <=? c) && (c <=? 13)) || ((28 <=? c) && (c <=? 32))
  || (c =? 133) || (c =? 160) || (c =? 5760)
  || ((8192 <=? c) && (c <=? 8202))
  || (c =? 8232) || (c =? 8233) || (c =? 8239) || (c =? 8287) || (c =? 12288).

Fixpoint dropwhile (P : N -> bool) (s : pystr) : pystr :=
  match s with
  | [] => []
  | c :: t => if P c then dropwhile P t else s
  end.

(** [s.lstrip(chars)], [s.rstrip(chars)], [s.strip(chars)], the character
    set given as a predicate. *)
Definition lstrip_of (P : N -> bool) (s : pystr) : pystr := dropwhile P s.
Fixpoint rstrip_of (P : N -> bool) (s : pystr) : pystr :=
  match s with
  | [] => []
  | c :: t =>
      match rstrip_of P t with
      | [] => if P c then [] else [c]
      | r => c :: r
      end
  end.
Definition strip_of (P : N -> bool) (s : pystr) : pystr := lstrip_of P (rstrip_of P s).

Definition rstrip : pystr -> pystr := rstrip_of isspace.
Definition strip : pystr -> pystr := strip_of isspace.

(** [s.lower()] on ASCII text: A-Z become a-z.  Python lowercases by the
    Unicode tables; on a string of code points below 128 that is this
    function, and statements about arbitrary input assume [ascii_text]. *)
Definition lower_char (c : N) : N :=
  if (65 <=? c) && (c <=? 90) then c + 32 else c.
Definition lower (s : pystr) : pystr := map lower_char s.


(** [s[:k]] with Python's rule for a negative bound. *)
Definition slice_to (s : pystr) (k : Z) : pystr :=
  if (0 <=? k)%Z then firstn (Z.to_nat k) s
  else firstn (Z.to_nat (len s + k)) s.

(** [str(n)] for an [int]. *)
Definition str_of_int (n : Z) : pystr :=
  py (NilEmpty.string_of_int (Z.to_int n)).

(** [sep.join(parts)] *)
Fixpoint join (sep : pystr) (parts : list pystr) : pystr :=
  match parts with
  | [] => []
  | [p] => p
  | p :: rest => p ++ sep ++ join sep rest
  end.

End PyStr.
Import PyStr.

(** ** The [re.sub] calls of the source *)

Module Re.

(** [re.sub(r"&", rep, s)]: every occurrence of the one character. *)
Definition sub_char (c : N) (rep s : pystr) : pystr := replace_char c rep s.

(** [re.sub(r"[C]+", rep, s)] for a character class [C]: every maximal run
    of characters of the class is replaced by [rep].  [in_run] tells that
    the previous character belonged to a run already replaced. *)
Fixpoint sub_plus (C : N -> bool) (rep : pystr) (in_run : bool) (s : pystr) : pystr :=
  match s with
  | [] => []
  | c :: t =>
      if C c then
        if in_run then sub_plus C rep true t
        else rep ++ sub_plus C rep true t
      else c :: sub_plus C rep false t
  end.

(** [re.sub(r"C{2,}", rep, s)]: every maximal run of two or more characters
    of the class is replaced by [rep]; a run of one is left as it is. *)
Fixpoint sub_2plus (C : N -> bool) (rep : pystr) (in_run : bool) (s : pystr) : pystr :=
  match s with
  | [] => []
  | c :: t =>
      if C c then
        if in_run then sub_2plus C rep true t
        else
          match t with
          | c' :: _ =>
              if C c' then rep ++ sub_2plus C rep true t
              else c :: sub_2plus C rep false t
          | [] => [c]
          end
      else c :: sub_2plus C rep false t
  end.

End Re.

(** ** HELPERS *)

(** [html.escape(s, quote=True)] *)
Definition esc (s : pystr) : pystr :=
  let s := replace_char 38 (py "&amp;") s in
  let s := replace_char 60 (py "&lt;") s in
  let s := replace_char 62 (py "&gt;") s in
  let s := replace_char 34 (py "&quot;") s in
  let s := replace_char 39 (py "&#x27;") s in
  s.

Definition is_hyphen (c : N) : bool := c =? 45.

(** The class [a-z0-9] and its complement [^a-z0-9]. *)
Definition is_lower_alnum (c : N) : bool :=
  ((97 <=? c) && (c <=? 122)) || ((48 <=? c) && (c <=? 57)).
Definition not_lower_alnum (c : N) : bool := negb (is_lower_alnum c).

Definition slugify (s : pystr) : pystr :=
  let s := lower (strip s) in
  let s := Re.sub_char 38 (py " and ") s in
  let s := Re.sub_plus not_lower_alnum (py "-") false s in
  let s := strip_of is_hyphen (Re.sub_2plus is_hyphen (py "-") false s) in
  s.

Definition city_state_slug (city state : pystr) : pystr :=
  slugify city ++ py "-" ++ slugify state.

Definition clamp_title (title : pystr) (max_chars : Z) : pystr :=
  if (len title <=? max_chars)%Z then title
  else rstrip (slice_to title (max_chars - 1)) ++ py "…".

Definition city_h1 (service city state : pystr) : pystr :=
  clamp_title (service ++ py " in " ++ city ++ py ", " ++ state) 70.

(** ** CONFIG and content tables *)

Record SiteConfig := {
  service_name : pystr;
  brand_name : pystr;
  cta_text : pystr;
  cta_href : pystr;
  output_dir : pystr;
  image_filename : pystr;
  cost_low : Z;
  cost_high : Z
}.

Definition CONFIG : SiteConfig := {|
  service_name := py "Wasp Nest/Wasp Hive Removal & Wasp Control Services";
  brand_name := py "Peephole Installation Company";
  cta_text := py "Get Free Estimate";
  cta_href := py "mailto:hello@example.com?subject=Free%20Quote%20Request";
  output_dir := py "public";
  image_filename := py "picture.png";
  cost_low := 150;
  cost_high := 450
|}.

Definition CITIES : list (pystr * pystr) := [
  (py "New York", py "NY");
  (py "Los Angeles", py "CA");
  (py "Chicago", py "IL");
  (py "Dallas", py "TX");
  (py "Fort Worth", py "TX");
  (py "Philadelphia", py "PA");
  (py "Houston", py "TX");
  (py "Atlanta", py "GA");
  (py "Washington", py "DC");
  (py "Hagerstown", py "MD");
  (py "Boston", py "MA");
  (py "Manchester", py "NH");
  (py "San Francisco", py "CA");
  (py "Oakland", py "CA");
  (py "San Jose", py "CA");
  (py "Tampa", py "FL");
  (py "St. Petersburg", py "FL");
  (py "Sarasota", py "FL");
  (py "Phoenix", py "AZ");
  (py "Prescott", py "AZ");
  (py "Seattle", py "WA");
  (py "Tacoma", py "WA");
  (py "Detroit", py "MI");
  (py "Orlando", py "FL");
  (py "Daytona Beach", py "FL");
  (py "Melbourne", py "FL");
  (py "Minneapolis", py "MN");
  (py "St. Paul", py "MN");
  (py "Denver", py "CO");
  (py "Miami", py "FL");
  (py "Fort Lauderdale", py "FL");
  (py "Cleveland", py "OH");
  (py "Akron", py "OH");
  (py "Canton", py "OH");
  (py "Sacramento", py "CA");
  (py "Stockton", py "CA");
  (py "Modesto", py "CA");
  (py "Charlotte", py "NC");
  (py "Raleigh", py "NC");
  (py "Durham", py "NC");
  (py "Fayetteville", py "NC");
  (py "Portland", py "OR");
  (py "St. Louis", py "MO");
  (py "Indianapolis", py "IN");
  (py "Nashville", py "TN");
  (py "Pittsburgh", py "PA");
  (py "Salt Lake City", py "UT");
  (py "Baltimore", py "MD");
  (py "San Diego", py "CA");
  (py "San Antonio", py "TX");
  (py "Hartford", py "CT");
  (py "New Haven", py "CT");
  (py "Kansas City", py "MO");
  (py "Austin", py "TX");
  (py "Columbus", py "OH");
  (py "Greenville", py "SC");
  (py "Spartanburg", py "SC");
  (py "Asheville", py "NC");
  (py "Anderson", py "SC");
  (py "Cincinnati", py "OH");
  (py "Milwaukee", py "WI");
  (py "West Palm Beach", py "FL");
  (py "Fort Pierce", py "FL");
  (py "Las Vegas", py "NV");
  (py "Jacksonville", py "FL");
  (py "Harrisburg", py "PA");
  (py "Lancaster", py "PA");
  (py "Lebanon", py "PA");
  (py "York", py "PA");
  (py "Grand Rapids", py "MI");
  (py "Kalamazoo", py "MI");
  (py "Battle Creek", py "MI");
  (py "Norfolk", py "VA");
  (py "Portsmouth", py "VA");
  (py "Newport News", py "VA");
  (py "Birmingham", py "AL");
  (py "Anniston", py "AL");
  (py "Tuscaloosa", py "AL");
  (py "Greensboro", py "NC");
  (py "High Point", py "NC");
  (py "Winston-Salem", py "NC");
  (py "Oklahoma City", py "OK");
  (py "Albuquerque", py "NM");
  (py "Santa Fe", py "NM");
  (py "Louisville", py "KY");
  (py "New Orleans", py "LA");
  (py "Memphis", py "TN");
  (py "Providence", py "RI");
  (py "New Bedford", py "MA");
  (py "Fort Myers", py "FL");
  (py "Naples", py "FL");
  (py "Buffalo", py "NY");
  (py "Fresno", py "CA");
  (py "Visalia", py "CA");
  (py "Richmond", py "VA");
  (py "Petersburg", py "VA");
  (py "Mobile", py "AL");
  (py "Pensacola", py "FL");
  (py "Fort Walton Beach", py "FL");
  (py "Little Rock", py "AR");
  (py "Pine Bluff", py "AR");
  (py "Wilkes-Barre", py "PA");
  (py "Scranton", py "PA");
  (py "Hazleton", py "PA");
  (py "Knoxville", py "TN");
  (py "Tulsa", py "OK");
  (py "Albany", py "NY");
  (py "Schenectady", py "NY");
  (py "Troy", py "NY");
  (py "Lexington", py "KY");
  (py "Dayton", py "OH");
  (py "Tucson", py "AZ");
  (py "Sierra Vista", py "AZ");
  (py "Spokane", py "WA");
  (py "Des Moines", py "IA");
  (py "Ames", py "IA");
  (py "Green Bay", py "WI");
  (py "Appleton", py "WI");
  (py "Honolulu", py "HI");
  (py "Roanoke", py "VA");
  (py "Lynchburg", py "VA");
  (py "Wichita", py "KS");
  (py "Hutchinson", py "KS");
  (py "Flint", py "MI");
  (py "Saginaw", py "MI");
  (py "Bay City", py "MI");
  (py "Omaha", py "NE");
  (py "Springfield", py "MO");
  (py "Huntsville", py "AL");
  (py "Decatur", py "AL");
  (py "Florence", py "AL");
  (py "Columbia", py "SC");
  (py "Madison", py "WI");
  (py "Portland", py "ME");
  (py "Auburn", py "ME");
  (py "Rochester", py "NY");
  (py "Harlingen", py "TX");
  (py "Weslaco", py "TX");
  (py "Brownsville", py "TX");
  (py "McAllen", py "TX");
  (py "Toledo", py "OH");
  (py "Charleston", py "WV");
  (py "Huntington", py "WV");
  (py "Waco", py "TX");
  (py "Temple", py "TX");
  (py "Bryan", py "TX");
  (py "Savannah", py "GA");
  (py "Charleston", py "SC");
  (py "Chattanooga", py "TN");
  (py "Colorado Springs", py "CO");
  (py "Pueblo", py "CO");
  (py "Syracuse", py "NY");
  (py "El Paso", py "TX");
  (py "Las Cruces", py "NM");
  (py "Paducah", py "KY");
  (py "Cape Girardeau", py "MO");
  (py "Harrisburg", py "IL");
  (py "Shreveport", py "LA");
  (py "Texarkana", py "TX");
  (py "Champaign", py "IL");
  (py "Urbana", py "IL");
  (py "Springfield", py "IL");
  (py "Decatur", py "IL");
  (py "Burlington", py "VT");
  (py "Plattsburgh", py "NY");
  (py "Cedar Rapids", py "IA");
  (py "Waterloo", py "IA");
  (py "Iowa City", py "IA");
  (py "Dubuque", py "IA");
  (py "Baton Rouge", py "LA");
  (py "Fort Smith", py "AR");
  (py "Fayetteville", py "AR");
  (py "Springdale", py "AR");
  (py "Rogers", py "AR");
  (py "Myrtle Beach", py "SC");
  (py "Florence", py "SC");
  (py "Boise", py "ID");
  (py "Jackson", py "MS");
  (py "South Bend", py "IN");
  (py "Elkhart", py "IN");
  (py "Johnson City", py "TN");
  (py "Kingsport", py "TN");
  (py "Bristol", py "VA");
  (py "Greenville", py "NC");
  (py "New Bern", py "NC");
  (py "Washington", py "NC");
  (py "Reno", py "NV");
  (py "Davenport", py "IA");
  (py "Rock Island", py "IL");
  (py "Moline", py "IL");
  (py "Tallahassee", py "FL");
  (py "Thomasville", py "GA");
  (py "Tyler", py "TX");
  (py "Longview", py "TX");
  (py "Lufkin", py "TX");
  (py "Nacogdoches", py "TX");
  (py "Lincoln", py "NE");
  (py "Hastings", py "NE");
  (py "Kearney", py "NE");
  (py "Augusta", py "GA");
  (py "Aiken", py "SC");
  (py "Evansville", py "IN");
  (py "Fort Wayne", py "IN");
  (py "Sioux Falls", py "SD");
  (py "Mitchell", py "SD");
  (py "Johnstown", py "PA");
  (py "Altoona", py "PA");
  (py "State College", py "PA");
  (py "Fargo", py "ND");
  (py "Valley City", py "ND");
  (py "Yakima", py "WA");
  (py "Pasco", py "WA");
  (py "Richland", py "WA");
  (py "Kennewick", py "WA");
  (py "Springfield", py "MA");
  (py "Holyoke", py "MA");
  (py "Traverse City", py "MI");
  (py "Cadillac", py "MI");
  (py "Lansing", py "MI");
  (py "Youngstown", py "OH");
  (py "Macon", py "GA");
  (py "Eugene", py "OR");
  (py "Montgomery", py "AL");
  (py "Selma", py "AL");
  (py "Peoria", py "IL");
  (py "Bloomington", py "IL");
  (py "Santa Barbara", py "CA");
  (py "Santa Maria", py "CA");
  (py "San Luis Obispo", py "CA");
  (py "Lafayette", py "LA");
  (py "Bakersfield", py "CA");
  (py "Wilmington", py "NC");
  (py "Columbus", py "GA");
  (py "Monterey", py "CA");
  (py "Salinas", py "CA");
  (py "La Crosse", py "WI");
  (py "Eau Claire", py "WI");
  (py "Corpus Christi", py "TX");
  (py "Salisbury", py "MD");
  (py "Amarillo", py "TX");
  (py "Wausau", py "WI");
  (py "Rhinelander", py "WI");
  (py "Columbus", py "MS");
  (py "Tupelo", py "MS");
  (py "West Point", py "MS");
  (py "Starkville", py "MS");
  (py "Columbia", py "MO");
  (py "Jefferson City", py "MO");
  (py "Chico", py "CA");
  (py "Redding", py "CA");
  (py "Rockford", py "IL");
  (py "Duluth", py "MN");
  (py "Superior", py "WI");
  (py "Medford", py "OR");
  (py "Klamath Falls", py "OR");
  (py "Lubbock", py "TX");
  (py "Topeka", py "KS");
  (py "Monroe", py "LA");
  (py "El Dorado", py "AR");
  (py "Beaumont", py "TX");
  (py "Port Arthur", py "TX");
  (py "Odessa", py "TX");
  (py "Midland", py "TX");
  (py "Palm Springs", py "CA");
  (py "Anchorage", py "AK");
  (py "Minot", py "ND");
  (py "Bismarck", py "ND");
  (py "Dickinson", py "ND");
  (py "Williston", py "ND");
  (py "Panama City", py "FL");
  (py "Sioux City", py "IA");
  (py "Wichita Falls", py "TX");
  (py "Lawton", py "OK");
  (py "Joplin", py "MO");
  (py "Pittsburg", py "KS");
  (py "Albany", py "GA");
  (py "Rochester", py "MN");
  (py "Mason City", py "IA");
  (py "Austin", py "MN");
  (py "Erie", py "PA");
  (py "Idaho Falls", py "ID");
  (py "Pocatello", py "ID");
  (py "Jackson", py "WY");
  (py "Bangor", py "ME");
  (py "Gainesville", py "FL");
  (py "Biloxi", py "MS");
  (py "Gulfport", py "MS");
  (py "Terre Haute", py "IN");
  (py "Sherman", py "TX");
  (py "Ada", py "OK");
  (py "Missoula", py "MT");
  (py "Binghamton", py "NY");
  (py "Wheeling", py "WV");
  (py "Steubenville", py "OH");
  (py "Yuma", py "AZ");
  (py "El Centro", py "CA");
  (py "Billings", py "MT");
  (py "Abilene", py "TX");
  (py "Sweetwater", py "TX");
  (py "Bluefield", py "WV");
  (py "Beckley", py "WV");
  (py "Oak Hill", py "WV");
  (py "Hattiesburg", py "MS");
  (py "Laurel", py "MS");
  (py "Rapid City", py "SD");
  (py "Dothan", py "AL");
  (py "Utica", py "NY");
  (py "Clarksburg", py "WV");
  (py "Weston", py "WV");
  (py "Harrisonburg", py "VA");
  (py "Jackson", py "TN");
  (py "Quincy", py "IL");
  (py "Hannibal", py "MO");
  (py "Keokuk", py "IA");
  (py "Charlottesville", py "VA");
  (py "Lake Charles", py "LA");
  (py "Elmira", py "NY");
  (py "Corning", py "NY");
  (py "Watertown", py "NY");
  (py "Bowling Green", py "KY");
  (py "Marquette", py "MI");
  (py "Jonesboro", py "AR");
  (py "Alexandria", py "LA");
  (py "Laredo", py "TX");
  (py "Butte", py "MT");
  (py "Bozeman", py "MT");
  (py "Bend", py "OR");
  (py "Grand Junction", py "CO");
  (py "Montrose", py "CO");
  (py "Twin Falls", py "ID");
  (py "Lafayette", py "IN");
  (py "Lima", py "OH");
  (py "Great Falls", py "MT");
  (py "Meridian", py "MS");
  (py "Cheyenne", py "WY");
  (py "Scottsbluff", py "NE");
  (py "Parkersburg", py "WV");
  (py "Greenwood", py "MS");
  (py "Greenville", py "MS");
  (py "Eureka", py "CA");
  (py "San Angelo", py "TX");
  (py "Casper", py "WY");
  (py "Riverton", py "WY");
  (py "Mankato", py "MN");
  (py "Ottumwa", py "IA");
  (py "Kirksville", py "MO");
  (py "St. Joseph", py "MO");
  (py "Fairbanks", py "AK");
  (py "Zanesville", py "OH");
  (py "Victoria", py "TX");
  (py "Helena", py "MT");
  (py "Presque Isle", py "ME");
  (py "Juneau", py "AK");
  (py "Alpena", py "MI");
  (py "North Platte", py "NE");
  (py "Glendive", py "MT")
].

Definition BRAND_NAME : pystr := py "Woodpecker Damage Repair Company".

Definition H1_TITLE : pystr := py "Woodpecker Damage Repair/Wood Siding & EIFS Services".

Definition COST_TITLE : pystr := py "Woodpecker Damage Repair Cost".

Definition HOWTO_TITLE : pystr := py "How to Repair Woodpecker Damage".

Definition H2_SHARED : list pystr := [
  py "What Is Woodpecker Damage to Houses?";
  py "Why Woodpeckers Peck on Houses";
  py "Common Types of Woodpecker Damage";
  py "Woodpecker Holes in Wood and Cedar Siding";
  py "Woodpecker Damage to EIFS and Stucco";
  py "Professional Woodpecker Damage Repair vs DIY";
  py "When to Hire a Woodpecker Damage Repair Service"
].

Definition P_SHARED : list pystr := [
  py "Woodpecker damage occurs when woodpeckers peck, drill, or create holes in the exterior of a house. This damage commonly affects wood siding, cedar siding, EIFS, and stucco surfaces. Over time, repeated pecking can expose the structure to moisture intrusion and further deterioration.";
  py "Woodpeckers peck on houses for several reasons, including searching for insects, creating nesting cavities, or establishing territory. Soft siding materials and hollow-sounding surfaces often attract repeated pecking behavior.";
  py "Common types of woodpecker damage include small round holes, larger nesting cavities, clustered peck marks, and surface chipping. Left unaddressed, these openings allow water, pests, and air infiltration.";
  py "Woodpecker holes in wood and cedar siding are especially common because these materials are softer and more attractive to birds. Repairing cedar siding requires proper filling, sealing, and color-matching to restore both appearance and protection.";
  py "EIFS and stucco are also frequent targets for woodpeckers. Damage to these systems often involves punctures or cavities that require specialized EIFS patching and sealing techniques to prevent moisture damage.";
  py "DIY woodpecker hole repair may seem straightforward, but improper filling or sealing can trap moisture or fail to stop repeat damage. Professional repair focuses on restoring the surface correctly while addressing underlying vulnerabilities.";
  py "Hiring a professional is recommended when damage affects siding integrity, involves EIFS or stucco systems, or when repeated woodpecker activity continues despite temporary fixes."
].

Definition H2_HOWTO : list pystr := [
  py "Can You Repair Woodpecker Damage Yourself?";
  py "How to Fix Woodpecker Holes in a House";
  py "How to Repair Woodpecker Holes in Wood Siding";
  py "How to Repair Woodpecker Damage in Cedar Siding";
  py "How to Repair Woodpecker Damage in EIFS or Stucco";
  py "Common Mistakes When Repairing Woodpecker Holes";
  py "When DIY Woodpecker Damage Repair Is Not Recommended"
].

Definition P_HOWTO : list pystr := [
  py "Minor woodpecker damage can sometimes be repaired by homeowners, but success depends on the siding type and extent of the damage. Improper repairs may fail to stop repeat pecking or allow moisture intrusion. For widespread or recurring damage, professional {woodpecker damage repair services} are often the safer option.";
  py "Fixing woodpecker holes in a house typically involves cleaning the damaged area, filling holes with appropriate exterior-grade filler, sanding the surface smooth, sealing the repair, and repainting or finishing to match the surrounding siding.";
  py "Repairing woodpecker holes in wood siding requires using fillers designed for exterior wood, followed by proper sealing and paint. Skipping these steps can lead to rot or visible patching.";
  py "Cedar siding repairs must be handled carefully to preserve the wood grain and appearance. Improper filling or painting can make repairs stand out and reduce siding durability.";
  py "EIFS and stucco repairs involve specialized patch materials and sealing techniques. Incorrect repairs can compromise the moisture barrier and lead to costly structural issues.";
  py "Common DIY mistakes include using interior fillers, failing to seal repairs properly, mismatching paint, and ignoring the cause of the woodpecker activity. These errors often result in repeat damage.";
  py "DIY repair is not recommended when damage is extensive, affects EIFS or stucco systems, or when woodpeckers continue pecking after repairs. In these cases, contacting a provider that offers {woodpecker damage repair services} is the safest next step."
].

Definition H2_COST : list pystr := [
  py "How Much Does Woodpecker Damage Repair Cost?";
  py "What Affects the Cost of Woodpecker Damage Repair?";
  py "Cost to Repair Woodpecker Holes in Siding";
  py "Woodpecker Damage Repair Cost for EIFS and Stucco";
  py "Does Insurance Cover Woodpecker Damage?";
  py "When Professional Woodpecker Damage Repair Is Worth the Cost"
].

Definition P_COST : list pystr := [
  py "Woodpecker damage repair typically costs between $200 and $1,500, depending on the number of holes, siding type, and extent of damage. Many homeowners compare DIY repairs against professional {woodpecker damage repair services} before deciding.";
  py "Repair costs are influenced by siding material, size and quantity of holes, accessibility, height of the repair area, and whether moisture damage is present behind the siding.";
  py "Repairing woodpecker holes in wood or cedar siding generally costs less than repairing EIFS or stucco, which require specialized materials and techniques.";
  py "EIFS and stucco repairs are often more expensive due to moisture barrier considerations and the need for precise patching to prevent future damage.";
  py "Insurance coverage for woodpecker damage varies by policy. Some homeowners insurance plans may cover damage if it is sudden and accidental, while others consider it maintenance-related. Policy review is recommended.";
  py "Professional repair is worth the cost when damage affects structural integrity, involves EIFS systems, or when repeat woodpecker activity continues. In these cases, professional {woodpecker damage repair services} provide long-term protection and peace of mind."
].

(** ** THEME *)

Definition CSS : pystr := strip (tpl "
:root{
  --bg:#fafaf9;
  --surface:#ffffff;
  --ink:#111827;
  --muted:#4b5563;
  --line:#e7e5e4;
  --soft:#f5f5f4;

  --cta:#16a34a;
  --cta2:#15803d;

  --max:980px;
  --radius:16px;
  --shadow:0 10px 30px rgba(17,24,39,0.06);
  --shadow2:0 10px 24px rgba(17,24,39,0.08);
}
*{box-sizing:border-box}
html{color-scheme:light}
body{
  margin:0;
  font-family:ui-sans-serif,system-ui,-apple-system,Segoe UI,Roboto,Helvetica,Arial;
  color:var(--ink);
  background:var(--bg);
  line-height:1.6;
}
a{color:inherit}
a:focus{outline:2px solid var(--cta); outline-offset:2px}

.topbar{
  position:sticky;
  top:0;
  z-index:50;
  background:rgba(250,250,249,0.92);
  backdrop-filter:saturate(140%) blur(10px);
  border-bottom:1px solid var(--line);
}
.topbar-inner{
  max-width:var(--max);
  margin:0 auto;
  padding:12px 18px;
  display:flex;
  align-items:center;
  justify-content:space-between;
  gap:14px;
}
.brand{
  font-weight:900;
  letter-spacing:-0.02em;
  text-decoration:none;
}
.nav{
  display:flex;
  align-items:center;
  gap:12px;
  flex-wrap:wrap;
  justify-content:flex-end;
}
.nav a{
  text-decoration:none;
  font-size:13px;
  color:var(--muted);
  padding:7px 10px;
  border-radius:12px;
  border:1px solid transparent;
}
.nav a:hover{
  background:var(--soft);
  border-color:var(--line);
}
.nav a[aria-current=`page`]{
  color:var(--ink);
  background:var(--soft);
  border:1px solid var(--line);
}

.btn{
  display:inline-block;
  padding:9px 12px;
  background:var(--cta);
  color:#fff;
  border-radius:12px;
  text-decoration:none;
  font-weight:900;
  font-size:13px;
  border:1px solid rgba(0,0,0,0.04);
  box-shadow:0 8px 18px rgba(22,163,74,0.18);
}
.btn:hover{background:var(--cta2)}
.btn:focus{outline:2px solid var(--cta2); outline-offset:2px}

/* IMPORTANT: nav links apply grey text; ensure CTA stays white in the toolbar */
.nav a.btn{
  color:#fff;
  background:var(--cta);
  border-color:rgba(0,0,0,0.04);
}
.nav a.btn:hover{background:var(--cta2)}
.nav a.btn:focus{outline:2px solid var(--cta2); outline-offset:2px}

header{
  border-bottom:1px solid var(--line);
  background:
    radial-gradient(1200px 380px at 10% -20%, rgba(22,163,74,0.08), transparent 55%),
    radial-gradient(900px 320px at 95% -25%, rgba(17,24,39,0.06), transparent 50%),
    #fbfbfa;
}
.hero{
  max-width:var(--max);
  margin:0 auto;
  padding:34px 18px 24px;
  display:grid;
  gap:10px;
  text-align:left;
}
.hero h1{
  margin:0;
  font-size:30px;
  letter-spacing:-0.03em;
  line-height:1.18;
}
.sub{margin:0; color:var(--muted); max-width:78ch; font-size:14px}

main{
  max-width:var(--max);
  margin:0 auto;
  padding:22px 18px 46px;
}
.card{
  background:var(--surface);
  border:1px solid var(--line);
  border-radius:var(--radius);
  padding:18px;
  box-shadow:var(--shadow);
}
.img{
  margin-top:14px;
  border-radius:14px;
  overflow:hidden;
  border:1px solid var(--line);
  background:var(--soft);
  box-shadow:var(--shadow2);
}
.img img{display:block; width:100%; height:auto}

h2{
  margin:18px 0 8px;
  font-size:16px;
  letter-spacing:-0.01em;
}
p{margin:0 0 10px}
.muted{color:var(--muted); font-size:13px}
hr{border:0; border-top:1px solid var(--line); margin:18px 0}

.city-grid{
  list-style:none;
  padding:0;
  margin:10px 0 0;
  display:grid;
  gap:10px;
  grid-template-columns:repeat(auto-fit,minmax(180px,1fr));
}
.city-grid a{
  display:block;
  text-decoration:none;
  color:var(--ink);
  background:#fff;
  border:1px solid var(--line);
  border-radius:14px;
  padding:12px 12px;
  font-weight:800;
  font-size:14px;
  box-shadow:0 10px 24px rgba(17,24,39,0.05);
}
.city-grid a:hover{
  transform:translateY(-1px);
  box-shadow:0 14px 28px rgba(17,24,39,0.08);
}

.callout{
  margin:16px 0 12px;
  padding:14px 14px;
  border-radius:14px;
  border:1px solid rgba(22,163,74,0.22);
  background:linear-gradient(180deg, rgba(22,163,74,0.08), rgba(22,163,74,0.03));
}
.callout-title{
  display:flex;
  align-items:center;
  gap:10px;
  font-weight:900;
  letter-spacing:-0.01em;
  margin:0 0 6px;
}
.badge{
  display:inline-block;
  padding:3px 10px;
  border-radius:999px;
  background:rgba(22,163,74,0.14);
  border:1px solid rgba(22,163,74,0.22);
  color:var(--ink);
  font-size:12px;
  font-weight:900;
}
.callout p{margin:0; color:var(--muted); font-size:13px}

footer{
  border-top:1px solid var(--line);
  background:#fbfbfa;
}
.footer-inner{
  max-width:var(--max);
  margin:0 auto;
  padding:28px 18px;
  display:grid;
  gap:10px;
  text-align:left;
}
.footer-inner h2{margin:0; font-size:18px}
.footer-links{display:flex; gap:12px; flex-wrap:wrap}
.footer-links a{color:var(--muted); text-decoration:none; font-size:13px; padding:6px 0}
.small{color:var(--muted); font-size:12px; margin-top:8px}
").

(** ** HTML BUILDING BLOCKS *)

Definition nav_item (current href label key : pystr) : pystr :=
  let cur := if eqb current key then tpl " aria-current=`page`" else [] in
  tpl "<a href=`" ++ esc href ++ tpl "`" ++ cur ++ py ">" ++ esc label ++ py "</a>".

Definition nav_html (current : pystr) : pystr :=
  tpl "<nav class=`nav` aria-label=`Primary navigation`>"
  ++ nav_item current (py "/") (py "Home") (py "home")
  ++ nav_item current (py "/cost/") (py "Cost") (py "cost")
  ++ nav_item current (py "/how-to/") (py "How-To") (py "howto")
  ++ (tpl "<a class=`btn` href=`" ++ esc (cta_href CONFIG) ++ tpl "`>"
      ++ esc (cta_text CONFIG) ++ py "</a>")
  ++ py "</nav>".

Definition base_html (title canonical_path description current_nav body : pystr) : pystr :=
  tpl "<!doctype html>
<html lang=`en`>
<head>
  <meta charset=`utf-8` />
  <meta name=`viewport` content=`width=device-width, initial-scale=1` />
  <title>" ++ esc title ++ tpl "</title>
  <meta name=`description` content=`" ++ esc description ++ tpl "` />
  <link rel=`canonical` href=`" ++ esc canonical_path ++ tpl "` />
  <style>
" ++ CSS ++ tpl "
  </style>
</head>
<body>
  <div class=`topbar`>
    <div class=`topbar-inner`>
      <a class=`brand` href=`/`>" ++ esc BRAND_NAME ++ tpl "</a>
      " ++ nav_html current_nav ++ tpl "
    </div>
  </div>
" ++ body ++ tpl "
</body>
</html>
".

Definition header_block (h1 sub : pystr) : pystr :=
  rstrip (tpl "
<header>
  <div class=`hero`>
    <h1>" ++ esc h1 ++ tpl "</h1>
  </div>
</header>
").

Definition footer_block : pystr :=
  rstrip (tpl "
<footer>
  <div class=`footer-inner`>
    <h2>Next steps</h2>
    <p class=`sub`>Ready to move forward? Request a free quote.</p>
    <div>
      <a class=`btn` href=`" ++ esc (cta_href CONFIG) ++ tpl "`>" ++ esc (cta_text CONFIG) ++ tpl "</a>
    </div>
    <div class=`footer-links`>
      <a href=`/`>Home</a>
      <a href=`/cost/`>Cost</a>
      <a href=`/how-to/`>How-To</a>
    </div>
    <div class=`small`>© " ++ esc BRAND_NAME ++ tpl ". All rights reserved.</div>
  </div>
</footer>
").

Definition page_shell (h1 sub inner_html : pystr) : pystr :=
  let img_src := py "/" ++ image_filename CONFIG in
  rstrip
    (header_block h1 sub
     ++ (tpl "
<main>
  <section class=`card`>
    <div class=`img`>
      <img src=`" ++ esc img_src ++ tpl "` alt=`Service image` loading=`lazy` />
    </div>
    " ++ inner_html ++ tpl "
  </section>
</main>
")
     ++ footer_block).

(** ** CONTENT SECTIONS *)

(** [table[i]]; the source indexes only inside the tables, where Python
    raises IndexError outside. *)
Definition item (table : list pystr) (i : nat) : pystr := nth i table [].

(** Python truth value of [local_line : str | None]. *)
Definition truthy (o : option pystr) : bool :=
  match o with
  | None => false
  | Some [] => false
  | Some (_ :: _) => true
  end.

Definition shared_sections_html (local_line : option pystr) : pystr :=
  let local :=
    if truthy local_line
    then tpl " <span class=`muted`>" ++ esc (match local_line with Some l => l | None => [] end) ++ py "</span>"
    else [] in
  rstrip (py "
<h2>" ++ esc (item H2_SHARED 0) ++ py "</h2>
<p>" ++ esc (item P_SHARED 0) ++ py "</</p>

<h2>" ++ esc (item H2_SHARED 1) ++ py "</h2>
<p>" ++ esc (item P_SHARED 1) ++ py "</</p>

<h2>" ++ esc (item H2_SHARED 2) ++ py "</h2>
<p>" ++ esc (item P_SHARED 2) ++ py "</</p>

<h2>" ++ esc (item H2_SHARED 3) ++ py "</h2>
<p>" ++ esc (item P_SHARED 3) ++ py "</</p>

<h2>" ++ esc (item H2_SHARED 4) ++ py "</h2>
<p>" ++ esc (item P_SHARED 4) ++ py "</</p>

<h2>" ++ esc (item H2_SHARED 5) ++ py "</h2>
<p>" ++ esc (item P_SHARED 5) ++ py "</</p>
").

Definition cost_sections_html : pystr :=
  rstrip (py "
<h2>" ++ esc (item H2_COST 0) ++ py "</h2>
<p>" ++ esc (item P_COST 0) ++ py "</p>

<h2>" ++ esc (item H2_COST 1) ++ py "</h2>
<p>" ++ esc (item P_COST 1) ++ py "</p>

<h2>" ++ esc (item H2_COST 2) ++ py "</h2>
<p>" ++ esc (item P_COST 2) ++ py "</p>

<h2>" ++ esc (item H2_COST 3) ++ py "</h2>
<p>" ++ esc (item P_COST 3) ++ py "</p>

<h2>" ++ esc (item H2_COST 4) ++ py "</h2>
<p>" ++ esc (item P_COST 4) ++ py "</p>

<h2>" ++ esc (item H2_COST 5) ++ py "</h2>
<p>" ++ esc (item P_COST 5) ++ tpl "</p>

<hr />

<p class=`muted`>
  Typical installed range (single nest, many homes): $" ++ str_of_int (cost_low CONFIG) ++ py "–$" ++ str_of_int (cost_high CONFIG) ++ py ". Final pricing depends on access, nest location, and time on site.
</p>
").

Definition howto_sections_html : pystr :=
  rstrip (py "
<h2>" ++ esc (item H2_HOWTO 0) ++ py "</h2>
<p>" ++ esc (item P_HOWTO 0) ++ py "</p>

<h2>" ++ esc (item H2_HOWTO 1) ++ py "</h2>
<p>" ++ esc (item P_HOWTO 1) ++ py "</p>

<h2>" ++ esc (item H2_HOWTO 2) ++ py "</h2>
<p>" ++ esc (item P_HOWTO 2) ++ py "</p>

<h2>" ++ esc (item H2_HOWTO 3) ++ py "</h2>
<p>" ++ esc (item P_HOWTO 3) ++ py "</p>

<h2>" ++ esc (item H2_HOWTO 4) ++ py "</h2>
<p>" ++ esc (item P_HOWTO 4) ++ py "</p>

<h2>" ++ esc (item H2_HOWTO 5) ++ py "</h2>
<p>" ++ esc (item P_HOWTO 5) ++ py "</p>
").

Definition city_cost_callout_html (city state : pystr) : pystr :=
  rstrip (tpl "
<div class=`callout` role=`note` aria-label=`Typical cost range`>
  <div class=`callout-title`>
    <span class=`badge`>Typical range</span>
    <span>$" ++ str_of_int (cost_low CONFIG) ++ py "–$" ++ str_of_int (cost_high CONFIG) ++ py " for one nest</span>
  </div>
  <p>
    In " ++ esc city ++ py ", " ++ esc state ++ py ", most pricing comes down to access and where the nest is located.
    If you want a fast, no-pressure estimate, use the “" ++ esc (cta_text CONFIG) ++ py "” button above.
  </p>
</div>
").

(** ** PAGE FACTORY *)

Definition make_page (h1 canonical description nav_key sub inner : pystr) : pystr :=
  let h1 := clamp_title h1 70 in
  let title := h1 in
  base_html title canonical (clamp_title description 155) nav_key
    (page_shell h1 sub inner).

Definition city_link (entry : pystr * pystr) : pystr :=
  let '(city, state) := entry in
  tpl "<li><a href=`" ++ esc (py "/" ++ city_state_slug city state ++ py "/") ++ tpl "`>"
  ++ esc city ++ py ", " ++ esc state ++ py "</a></li>".

Definition homepage_html : pystr :=
  let h1 := H1_TITLE in
  let city_links := join (py "
") (map city_link CITIES) in
  let inner :=
    shared_sections_html None
    ++ tpl "
<hr />
<h2>Choose your city</h2>
<p class=`muted`>Select a city page for the same guide with a light local line.</p>
<ul class=`city-grid`>
"
    ++ city_links
    ++ tpl "
</ul>
<hr />
<p class=`muted`>
  Also available: <a href=`/cost/`>Wasp Nest Removal Cost</a> and <a href=`/how-to/`>How to Get Rid of Wasp Nest</a>.
</p>
" in
  make_page h1 (py "/")
    (py "Straight answers on wasp nest removal and wasp control.")
    (py "home")
    (py "How removal works, what prevents repeat activity, and when to call help.")
    inner.

Definition city_page_html (city state : pystr) : pystr :=
  let inner :=
    shared_sections_html (Some (py "Serving " ++ city ++ py ", " ++ state ++ py "."))
    ++ city_cost_callout_html city state
    ++ (tpl "
<hr />
<h2>Wasp Nest Removal Cost</h2>
<p class=`muted`>
  Typical installed range for one nest often falls around $" ++ str_of_int (cost_low CONFIG) ++ py "–$" ++ str_of_int (cost_high CONFIG) ++ tpl ". Access and nest location drive most pricing.
  See the <a href=`/cost/`>cost page</a> for details.
</p>
") in
  make_page (city_h1 H1_TITLE city state)
    (py "/" ++ city_state_slug city state ++ py "/")
    (py "Wasp nest removal and wasp control guide with local context for " ++ city ++ py ", " ++ state ++ py ".")
    (py "home")
    (py "Same core guide, plus a quick local note and a typical cost range.")
    inner.

Definition cost_page_html : pystr :=
  make_page COST_TITLE (py "/cost/")
    (py "Typical wasp nest removal cost ranges and what changes pricing.")
    (py "cost")
    (py "Simple ranges and the factors that usually move the price.")
    cost_sections_html.

Definition howto_page_html : pystr :=
  make_page HOWTO_TITLE (py "/how-to/")
    (py "Clear steps for dealing with a wasp nest without making it worse.")
    (py "howto")
    (py "A practical guide that prioritizes safety and reduces repeat activity.")
    howto_sections_html.

(** ** ROBOTS + SITEMAP *)

Definition robots_txt : pystr :=
  py "User-agent: *
Allow: /
Sitemap: /sitemap.xml
".

Definition sitemap_entry (u : pystr) : pystr :=
  py "  <url><loc>" ++ u ++ py "</loc></url>
".

Definition sitemap_xml (urls : list pystr) : pystr :=
  tpl "<?xml version=`1.0` encoding=`UTF-8`?>
"
  ++ tpl "<urlset xmlns=`http://www.sitemaps.org/schemas/sitemap/0.9`>
"
  ++ List.concat (map sitemap_entry urls)
  ++ py "</urlset>
".

(** ** MAIN *)

(** The files [main] writes below the output directory, in the order of
    the [write_text] calls: path relative to [CONFIG.output_dir], content. *)
Definition city_path (entry : pystr * pystr) : pystr :=
  let '(c, s) := entry in py "/" ++ city_state_slug c s ++ py "/".

Definition main_urls : list pystr :=
  [py "/"; py "/cost/"; py "/how-to/"] ++ map city_path CITIES.

Definition core_pages : list (pystr * pystr) :=
  [ (py "index.html", homepage_html);
    (py "cost/index.html", cost_page_html);
    (py "how-to/index.html", howto_page_html) ].

Definition city_pages : list (pystr * pystr) :=
  map (fun '(city, state) =>
         (city_state_slug city state ++ py "/index.html", city_page_html city state))
      CITIES.

Definition main_writes : list (pystr * pystr) :=
  core_pages ++ city_pages
  ++ [ (py "robots.txt", robots_txt);
       (py "sitemap.xml", sitemap_xml main_urls) ].

(** Every generated page: the HTML documents among the written files. *)
Definition generated_pages : list pystr := map snd (core_pages ++ city_pages).

(** ** The specification's slug algorithm *)

(** "Collapse every run of one-or-more non-[a-z0-9] characters into a single
    hyphen": a character outside the class yields a hyphen exactly when it is
    the last one of its run. *)
Fixpoint collapse_runs (s : pystr) : pystr :=
  match s with
  | [] => []
  | c :: t =>
      if is_lower_alnum c then c :: collapse_runs t
      else
        match t with
        | [] => [45]
        | c' :: _ => if is_lower_alnum c' then 45 :: collapse_runs t else collapse_runs t
        end
  end.

(** "Lowercase; trim; replace literal & with [amp]; collapse every run of
    non-[a-z0-9] characters into a single hyphen; strip leading and trailing
    hyphens." *)
Definition spec_slug_with (amp : pystr) (s : pystr) : pystr :=
  let s := lower s in
  let s := strip s in
  let s := replace_char 38 amp s in
  let s := collapse_runs s in
  strip_of is_hyphen s.


(** The same with the word set off by spaces, as the source writes it. *)
Definition spec_slug_spaced : pystr -> pystr := spec_slug_with (py " and ").

(** No two hyphens in a row. *)
Fixpoint single_hyphens (s : pystr) : bool :=
  match s with
  | [] => true
  | c :: t =>
      match t with
      | [] => true
      | c' :: _ => negb (is_hyphen c && is_hyphen c') && single_hyphens t
      end
  end.

(** [s.endswith(p)] *)
Definition endswith (p s : pystr) : bool := startswith (rev p) (rev s).

(** A well-formed path segment: not empty, only lowercase letters, digits
    and hyphens, no two hyphens in a row, no hyphen first or last. *)
Definition slug_char (c : N) : bool := is_lower_alnum c || is_hyphen c.

Definition well_formed_slug (g : pystr) : bool :=
  negb (eqb g []) && forallb slug_char g && single_hyphens g
  && negb (startswith (py "-") g) && negb (endswith (py "-") g).

(** ** Reading the generated documents *)

(** The texts between each occurrence of [op] and the next [cl] after it.
    [skip] counts the characters of a delimiter still to pass, [cur] holds
    (reversed) the text read since the last [op]. *)
Fixpoint scan (op cl : pystr) (skip : nat) (cur : option pystr) (s : pystr) : list pystr :=
  match s with
  | [] => []
  | c :: t =>
      match skip with
      | S k => scan op cl k cur t
      | O =>
          match cur with
          | None =>
              if startswith op s then scan op cl (List.length op - 1) (Some []) t
              else scan op cl O None t
          | Some acc =>
              if startswith cl s then rev acc :: scan op cl (List.length cl - 1) None t
              else scan op cl O (Some (c :: acc)) t
          end
      end
  end.

(** The contents of the elements [<tag>...</tag>] of a document, in
    document order. *)
Definition element_texts (tag : pystr) (doc : pystr) : list pystr :=
  scan (py "<" ++ tag ++ py ">") (py "</" ++ tag ++ py ">") O None doc.

Definition title_texts : pystr -> list pystr := element_texts (py "title").
Definition h1_texts : pystr -> list pystr := element_texts (py "h1").
Definition h2_texts : pystr -> list pystr := element_texts (py "h2").

(** The heading texts of a document: the contents of its h1 to h6
    elements. *)
Definition headings (doc : pystr) : list pystr :=
  flat_map (fun tag => element_texts tag doc)
    [py "h1"; py "h2"; py "h3"; py "h4"; py "h5"; py "h6"].

(** Number of heading start tags that are not of the plain form [<hN>]
    (which [headings] would not read): positions with "<h", a digit from 1
    to 6 and a next character other than ">". *)
Definition decorated_heading_tag_at (doc : pystr) : bool :=
  match doc with
  | 60 :: 104 :: d :: e :: _ => (49 <=? d) && (d <=? 54) && negb (e =? 62)
  | 60 :: 104 :: d :: [] => (49 <=? d) && (d <=? 54)
  | _ => false
  end.

Fixpoint decorated_heading_tags (doc : pystr) : nat :=
  match doc with
  | [] => O
  | _ :: t =>
      Nat.add (if decorated_heading_tag_at doc then 1%nat else O)
              (decorated_heading_tags t)
  end.

Definition same_set (a b : list pystr) : Prop := forall t, In t a <-> In t b.

(** Title and heading of a page: one title element, one h1 element, the
    same text in both, and no other h1 start tag in the document. *)
Definition title_is_h1 (doc : pystr) : Prop :=
  exists t, title_texts doc = [t] /\ h1_texts doc = [t]
            /\ occurrences (py "<h1") doc = 1%nat.

(** ** Deciding the properties of the generated site *)

Fixpoint inb (t : pystr) (l : list pystr) : bool :=
  match l with
  | [] => false
  | x :: r => eqb t x || inb t r
  end.

Fixpoint strs_eqb (a b : list pystr) : bool :=
  match a, b with
  | [], [] => true
  | x :: a', y :: b' => eqb x y && strs_eqb a' b'
  | _, _ => false
  end.

Fixpoint nodupb (l : list pystr) : bool :=
  match l with
  | [] => true
  | x :: r => negb (inb x r) && nodupb r
  end.

Definition entry_eqb (e1 e2 : pystr * pystr) : bool :=
  eqb (fst e1) (fst e2) && eqb (snd e1) (snd e2).

Definition title_is_h1b (doc : pystr) : bool :=
  match title_texts doc, h1_texts doc with
  | [t], [t'] => eqb t t' && Nat.eqb (occurrences (py "<h1") doc) 1
  | _, _ => false
  end.

(** The checks made on one generated page, gathered so that a page is
    generated once for all of them: title and h1, the heading texts
    expected, no "Serving " anywhere, plain heading tags only. *)
Definition page_checks (page : pystr) (expected_headings : list pystr) : bool :=
  title_is_h1b page
  && strs_eqb (headings page) expected_headings
  && negb (contains (py "Serving ") page)
  && Nat.eqb (decorated_heading_tags page) 0.

Definition city_page_checks (e : pystr * pystr) : bool :=
  page_checks (city_page_html (fst e) (snd e))
    ([esc (city_h1 H1_TITLE (fst e) (snd e))] ++ map esc (firstn 6 H2_SHARED)
     ++ [py "Wasp Nest Removal Cost"; py "Next steps"]).

(** One section of a content block: heading, then paragraph closed by
    [close]. *)
Definition section_html (close : pystr) (hp : pystr * pystr) : pystr :=
  py "
<h2>" ++ esc (fst hp) ++ py "</h2>
<p>" ++ esc (snd hp) ++ close ++ py "
".

(** A sitemap path without the character "<". *)
Definition no_lt (u : pystr) : bool := forallb (fun c => negb (c =? 60)) u.

(** Closed statements about the generated site are settled by running the
    generator. *)
Ltac by_eval := vm_compute; reflexivity.

(** * Properties *)

(** ** Strings *)

Lemma rstrip_of_length (P : N -> bool) (s : pystr) :
  (List.length (rstrip_of P s) <= List.length s)%nat.
Proof.
  induction s as [|c t IH]; simpl; [lia|].
  destruct (rstrip_of P t) as [|r rs].
  - destruct (P c); simpl; lia.
  - simpl in *. lia.
Qed.

Lemma rstrip_of_map (P : N -> bool) (f : N -> N) (s : pystr) :
  (forall c, P (f c) = P c) ->
  rstrip_of P (map f s) = map f (rstrip_of P s).
Proof.
  intros Hf. induction s as [|c t IH]; simpl; [reflexivity|].
  rewrite IH. destruct (rstrip_of P t) as [|r rs]; simpl.
  - rewrite Hf. destruct (P c); reflexivity.
  - reflexivity.
Qed.

Lemma dropwhile_map (P : N -> bool) (f : N -> N) (s : pystr) :
  (forall c, P (f c) = P c) ->
  dropwhile P (map f s) = map f (dropwhile P s).
Proof.
  intros Hf. induction s as [|c t IH]; simpl; [reflexivity|].
  rewrite Hf. destruct (P c); [exact IH | reflexivity].
Qed.

Lemma isspace_lower_char (c : N) : isspace (lower_char c) = isspace c.
Proof.
  unfold lower_char.
  destruct ((65 <=? c) && (c <=? 90)) eqn:E; [|reflexivity].
  apply andb_prop in E. destruct E as [E1 E2].
  apply N.leb_le in E1. apply N.leb_le in E2.
  unfold isspace.
  repeat match goal with
         | |- context [?a <=? ?b] => destruct (N.leb_spec a b); try lia
         | |- context [?a =? ?b] => destruct (N.eqb_spec a b); try lia
         end; reflexivity.
Qed.

Lemma strip_lower (s : pystr) : lower (strip s) = strip (lower s).
Proof.
  unfold lower, strip, strip_of, lstrip_of.
  rewrite (rstrip_of_map isspace lower_char s isspace_lower_char).
  rewrite (dropwhile_map isspace lower_char _ isspace_lower_char).
  reflexivity.
Qed.

(** ** The regular-expression substitutions of [slugify] *)

Lemma is_lower_alnum_not_hyphen (c : N) : is_lower_alnum c = true -> is_hyphen c = false.
Proof.
  unfold is_lower_alnum, is_hyphen. intros H.
  destruct (N.eqb_spec c 45) as [->|]; [discriminate H | reflexivity].
Qed.

(** Replacing at the start of a run or at its end gives the same string. *)
Lemma sub_plus_collapse (s : pystr) :
  Re.sub_plus not_lower_alnum (py "-") false s = collapse_runs s
  /\ (forall c t, s = c :: t -> is_lower_alnum c = false ->
        45 :: Re.sub_plus not_lower_alnum (py "-") true s = collapse_runs s)
  /\ (forall c t, s = c :: t -> is_lower_alnum c = true ->
        Re.sub_plus not_lower_alnum (py "-") true s = collapse_runs s).
Proof.
  induction s as [|c t [IH1 [IH2 IH3]]].
  - repeat split; intros; discriminate.
  - assert (Hstart : is_lower_alnum c = false ->
              45 :: Re.sub_plus not_lower_alnum (py "-") true t = collapse_runs (c :: t)).
    { intros Hc. simpl. rewrite Hc.
      destruct t as [|c' t']; [reflexivity|].
      destruct (is_lower_alnum c') eqn:Hc'.
      - f_equal. exact (IH3 c' t' eq_refl Hc').
      - exact (IH2 c' t' eq_refl Hc'). }
    assert (Hkeep : forall b, is_lower_alnum c = true ->
              Re.sub_plus not_lower_alnum (py "-") b (c :: t) = collapse_runs (c :: t)).
    { intros b Hc. simpl. unfold not_lower_alnum. rewrite Hc. simpl.
      f_equal. exact IH1. }
    assert (Hrun : forall b, is_lower_alnum c = false ->
              Re.sub_plus not_lower_alnum (py "-") b (c :: t)
              = if b then Re.sub_plus not_lower_alnum (py "-") true t
                else 45 :: Re.sub_plus not_lower_alnum (py "-") true t).
    { intros b Hc. simpl. unfold not_lower_alnum. rewrite Hc. simpl.
      destruct b; reflexivity. }
    repeat split.
    + case_eq (is_lower_alnum c); intros Hc.
      * exact (Hkeep false Hc).
      * rewrite (Hrun false Hc). exact (Hstart Hc).
    + intros c0 t0 E Hc0. injection E as <- <-.
      rewrite (Hrun true Hc0). exact (Hstart Hc0).
    + intros c0 t0 E Hc0. injection E as <- <-. exact (Hkeep true Hc0).
Qed.

Lemma collapse_runs_single_hyphens (s : pystr) : single_hyphens (collapse_runs s) = true.
Proof.
  induction s as [|c t IH]; [reflexivity|].
  simpl. destruct (is_lower_alnum c) eqn:Hc.
  - simpl. destruct (collapse_runs t) as [|d r] eqn:E; [reflexivity|].
    rewrite (is_lower_alnum_not_hyphen c Hc). simpl. exact IH.
  - destruct t as [|c' t']; [reflexivity|].
    destruct (is_lower_alnum c') eqn:Hc'; [|exact IH].
    simpl in IH |- *. rewrite Hc' in IH |- *.
    rewrite (is_lower_alnum_not_hyphen c' Hc'). simpl. exact IH.
Qed.

(** On such a string the substitution of "-{2,}" changes nothing. *)
Lemma sub_2plus_single_hyphens (s : pystr) :
  single_hyphens s = true -> Re.sub_2plus is_hyphen (py "-") false s = s.
Proof.
  induction s as [|c t IH]; [reflexivity|].
  intros H. simpl in H |- *.
  destruct t as [|c' t'].
  - destruct (is_hyphen c); reflexivity.
  - apply andb_prop in H. destruct H as [H1 H2].
    destruct (is_hyphen c) eqn:Hc.
    + destruct (is_hyphen c') eqn:Hc'; [discriminate H1|].
      f_equal. exact (IH H2).
    + f_equal. exact (IH H2).
Qed.

(** [slugify] computes the specification's algorithm with " and " for &. *)
Lemma slugify_spec_slug_spaced (s : pystr) : slugify s = spec_slug_spaced s.
Proof.
  unfold slugify, spec_slug_spaced, spec_slug_with, Re.sub_char.
  rewrite strip_lower.
  rewrite (proj1 (sub_plus_collapse _)).
  rewrite sub_2plus_single_hyphens by apply collapse_runs_single_hyphens.
  reflexivity.
Qed.

(** *** Shape of a slug *)

Lemma rstrip_of_prefix (P : N -> bool) (s : pystr) :
  exists suffix, s = rstrip_of P s ++ suffix.
Proof.
  induction s as [|c t [suf IH]]; [exists []; reflexivity|].
  cbn [rstrip_of]. destruct (rstrip_of P t) as [|r rs].
  - destruct (P c).
    + exists (c :: t). reflexivity.
    + exists t. reflexivity.
  - exists suf. cbn [app] in *. f_equal. exact IH.
Qed.

Lemma rstrip_of_last (P : N -> bool) (s : pystr) :
  rstrip_of P s = [] \/ exists a c, rstrip_of P s = a ++ [c] /\ P c = false.
Proof.
  induction s as [|c t IH]; [left; reflexivity|].
  cbn [rstrip_of]. destruct (rstrip_of P t) as [|r rs].
  - destruct (P c) eqn:Hc; [left; reflexivity|].
    right. exists [], c. split; [reflexivity | exact Hc].
  - right. destruct IH as [IH | [a [d [IH Hd]]]]; [discriminate IH|].
    exists (c :: a), d. rewrite IH. split; [reflexivity | exact Hd].
Qed.

Lemma dropwhile_suffix (P : N -> bool) (s : pystr) :
  exists prefix, s = prefix ++ dropwhile P s.
Proof.
  induction s as [|c t [pre IH]]; [exists []; reflexivity|].
  cbn [dropwhile]. destruct (P c).
  - exists (c :: pre). cbn [app]. f_equal. exact IH.
  - exists []. reflexivity.
Qed.

Lemma dropwhile_head (P : N -> bool) (s : pystr) :
  match dropwhile P s with [] => True | c :: _ => P c = false end.
Proof.
  induction s as [|c t IH]; [exact I|].
  cbn [dropwhile]. destruct (P c) eqn:Hc; [exact IH | exact Hc].
Qed.

Lemma dropwhile_last (P : N -> bool) (a : pystr) (c : N) :
  P c = false -> dropwhile P (a ++ [c]) = dropwhile P a ++ [c].
Proof.
  intros Hc. induction a as [|x a IH]; cbn [app dropwhile].
  - rewrite Hc. reflexivity.
  - destruct (P x); [exact IH | reflexivity].
Qed.

Lemma single_hyphens_tail (c : N) (t : pystr) :
  single_hyphens (c :: t) = true -> single_hyphens t = true.
Proof.
  cbn [single_hyphens]. destruct t as [|c' t']; [reflexivity|].
  intros H. apply andb_prop in H. apply H.
Qed.

Lemma single_hyphens_app_l (a b : pystr) :
  single_hyphens (a ++ b) = true -> single_hyphens a = true.
Proof.
  induction a as [|c a IH]; [reflexivity|].
  intros H. pose proof (single_hyphens_tail _ _ H) as Ht.
  destruct a as [|c' a']; [reflexivity|].
  cbn [app single_hyphens] in H |- *.
  apply andb_prop in H. destruct H as [H1 _]. rewrite H1. cbn [andb].
  exact (IH Ht).
Qed.

Lemma single_hyphens_app_r (a b : pystr) :
  single_hyphens (a ++ b) = true -> single_hyphens b = true.
Proof.
  induction a as [|c a IH]; [trivial|].
  intros H. apply IH. exact (single_hyphens_tail _ _ H).
Qed.

Lemma single_hyphens_cons (c c' : N) (t : pystr) :
  single_hyphens (c :: c' :: t)
  = negb (is_hyphen c && is_hyphen c') && single_hyphens (c' :: t).
Proof. reflexivity. Qed.

(** Joining two strings of single hyphens at a character that is no
    hyphen keeps the hyphens single. *)
Lemma single_hyphens_join (a : pystr) (c : N) (b : pystr) :
  is_hyphen c = false ->
  single_hyphens (a ++ [c]) = true -> single_hyphens (c :: b) = true ->
  single_hyphens (a ++ c :: b) = true.
Proof.
  intros Hc Ha Hb. induction a as [|x a IH]; [exact Hb|].
  pose proof (IH (single_hyphens_tail _ _ Ha)) as IH'.
  destruct a as [|y a'].
  - change (single_hyphens (x :: c :: b) = true).
    rewrite single_hyphens_cons, Hc, andb_false_r. exact Hb.
  - change (single_hyphens (x :: y :: (a' ++ c :: b)) = true).
    change (single_hyphens (x :: y :: (a' ++ [c])) = true) in Ha.
    rewrite single_hyphens_cons in Ha |- *.
    apply andb_prop in Ha. destruct Ha as [Hxy _]. rewrite Hxy. exact IH'.
Qed.

Lemma collapse_runs_slug_chars (s : pystr) : forallb slug_char (collapse_runs s) = true.
Proof.
  induction s as [|c t IH]; [reflexivity|].
  cbn [collapse_runs]. destruct (is_lower_alnum c) eqn:Hc.
  - cbn [forallb]. unfold slug_char at 1. rewrite Hc. exact IH.
  - destruct t as [|c' t']; [reflexivity|].
    destruct (is_lower_alnum c'); [|exact IH].
    cbn [forallb]. rewrite IH. reflexivity.
Qed.

Lemma startswith_hyphen (s : pystr) :
  startswith (py "-") s = match s with [] => false | c :: _ => is_hyphen c end.
Proof.
  destruct s as [|c t]; [reflexivity|].
  change (py "-") with [45]. cbn [startswith]. unfold is_hyphen.
  rewrite andb_true_r. apply N.eqb_sym.
Qed.

Lemma endswith_hyphen_last (a : pystr) (c : N) :
  endswith (py "-") (a ++ [c]) = is_hyphen c.
Proof.
  unfold endswith. rewrite rev_app_distr. cbn [rev app].
  change (py "-") with [45]. cbn [rev app startswith]. unfold is_hyphen.
  rewrite andb_true_r. apply N.eqb_sym.
Qed.

(** A slug is empty or well formed. *)
Lemma slugify_well_formed (s : pystr) :
  slugify s = [] \/ well_formed_slug (slugify s) = true.
Proof.
  rewrite slugify_spec_slug_spaced.
  unfold spec_slug_spaced, spec_slug_with, strip_of, lstrip_of.
  set (x := collapse_runs _).
  assert (Hchars : forallb slug_char x = true) by apply collapse_runs_slug_chars.
  assert (Hsingle : single_hyphens x = true) by apply collapse_runs_single_hyphens.
  destruct (rstrip_of_prefix is_hyphen x) as [suf Hsuf].
  destruct (dropwhile_suffix is_hyphen (rstrip_of is_hyphen x)) as [pre Hpre].
  pose proof (dropwhile_head is_hyphen (rstrip_of is_hyphen x)) as Hhead.
  destruct (rstrip_of_last is_hyphen x) as [Hr | [a [c [Hr Hc]]]].
  - left. rewrite Hr. reflexivity.
  - set (g := dropwhile is_hyphen (rstrip_of is_hyphen x)) in *.
    assert (Hg : g = dropwhile is_hyphen a ++ [c]).
    { unfold g. rewrite Hr. apply dropwhile_last. exact Hc. }
    right. unfold well_formed_slug.
    assert (Hne : eqb g [] = false).
    { rewrite Hg. destruct (dropwhile is_hyphen a); reflexivity. }
    assert (Hgc : forallb slug_char g = true).
    { rewrite Hsuf, Hpre in Hchars. rewrite !forallb_app in Hchars.
      apply andb_prop in Hchars. destruct Hchars as [Hchars _].
      apply andb_prop in Hchars. apply Hchars. }
    assert (Hgs : single_hyphens g = true).
    { rewrite Hsuf, Hpre in Hsingle.
      apply single_hyphens_app_l in Hsingle.
      exact (single_hyphens_app_r _ _ Hsingle). }
    assert (Hgh : startswith (py "-") g = false).
    { rewrite startswith_hyphen. destruct g; [reflexivity | exact Hhead]. }
    assert (Hgl : endswith (py "-") g = false).
    { rewrite Hg, endswith_hyphen_last. exact Hc. }
    rewrite Hne, Hgc, Hgs, Hgh, Hgl. reflexivity.
Qed.

Lemma well_formed_slug_inv (g : pystr) :
  well_formed_slug g = true ->
  g <> [] /\ forallb slug_char g = true /\ single_hyphens g = true
  /\ startswith (py "-") g = false /\ endswith (py "-") g = false.
Proof.
  unfold well_formed_slug. intros H.
  repeat (apply andb_prop in H; destruct H as [H ?]).
  repeat split; try assumption.
  - intros ->. discriminate H.
  - destruct (startswith (py "-") g); [discriminate | reflexivity].
  - destruct (endswith (py "-") g); [discriminate | reflexivity].
Qed.

Lemma last_not_hyphen (g : pystr) :
  g <> [] -> endswith (py "-") g = false ->
  exists a c, g = a ++ [c] /\ is_hyphen c = false.
Proof.
  intros Hne He. destruct (exists_last Hne) as [a [c ->]].
  exists a, c. split; [reflexivity|].
  rewrite endswith_hyphen_last in He. exact He.
Qed.

(** Two well-formed slugs joined by a hyphen are a well-formed slug. *)
Lemma well_formed_slug_join (a b : pystr) :
  well_formed_slug a = true -> well_formed_slug b = true ->
  well_formed_slug (a ++ py "-" ++ b) = true.
Proof.
  intros Ha Hb.
  apply well_formed_slug_inv in Ha. destruct Ha as (Hane & Hac & Has & Hah & Hal).
  apply well_formed_slug_inv in Hb. destruct Hb as (Hbne & Hbc & Hbs & Hbh & Hbl).
  destruct (last_not_hyphen a Hane Hal) as (a0 & ca & -> & Hca).
  destruct (last_not_hyphen b Hbne Hbl) as (b0 & cb & Eb & Hcb).
  rewrite startswith_hyphen in Hah, Hbh.
  change (py "-") with [45] at 1.
  assert (Hsingle : single_hyphens ((a0 ++ [ca]) ++ [45] ++ b) = true).
  { rewrite <- app_assoc. cbn [app].
    apply single_hyphens_join; [exact Hca | exact Has |].
    destruct b as [|hb tb]; [contradiction Hbne; reflexivity|].
    rewrite single_hyphens_cons, Hca. cbn [andb negb].
    rewrite single_hyphens_cons, Hbh, andb_false_r. exact Hbs. }
  assert (Hchars : forallb slug_char ((a0 ++ [ca]) ++ [45] ++ b) = true).
  { rewrite (forallb_app slug_char (a0 ++ [ca])), Hac.
    cbn [app forallb]. rewrite Hbc. reflexivity. }
  assert (Hhead : startswith (py "-") ((a0 ++ [ca]) ++ [45] ++ b) = false).
  { rewrite startswith_hyphen.
    destruct a0 as [|x a0']; cbn [app] in Hah |- *; exact Hah. }
  assert (Hlast : endswith (py "-") ((a0 ++ [ca]) ++ [45] ++ b) = false).
  { rewrite Eb.
    replace ((a0 ++ [ca]) ++ [45] ++ b0 ++ [cb])
      with (((a0 ++ [ca]) ++ [45] ++ b0) ++ [cb])
      by (rewrite <- !app_assoc; reflexivity).
    rewrite endswith_hyphen_last. exact Hcb. }
  assert (Hne : eqb ((a0 ++ [ca]) ++ [45] ++ b) [] = false).
  { destruct a0; reflexivity. }
  unfold well_formed_slug. rewrite Hne, Hchars, Hsingle, Hhead, Hlast. reflexivity.
Qed.

(** The combined slug of a city and a state is well formed as soon as
    neither slug is empty. *)
Lemma city_state_slug_well_formed (city state : pystr) :
  slugify city <> [] -> slugify state <> [] ->
  well_formed_slug (city_state_slug city state) = true.
Proof.
  intros Hc Hs. unfold city_state_slug. apply well_formed_slug_join.
  - destruct (slugify_well_formed city) as [E|H]; [contradiction | exact H].
  - destruct (slugify_well_formed state) as [E|H]; [contradiction | exact H].
Qed.

(** ** Title and description clamp *)

Lemma slice_to_length (s : pystr) (k : Z) :
  (0 <= k)%Z -> (len (slice_to s k) <= k)%Z.
Proof.
  intros Hk. unfold slice_to, len.
  destruct (Z.leb_spec 0 k) as [_|]; [|lia].
  pose proof (firstn_le_length (Z.to_nat k) s). rewrite length_firstn. lia.
Qed.

Lemma len_app (a b : pystr) : len (a ++ b) = (len a + len b)%Z.
Proof. unfold len. rewrite length_app. lia. Qed.

Lemma rstrip_len (s : pystr) : (len (rstrip s) <= len s)%Z.
Proof. unfold len, rstrip. pose proof (rstrip_of_length isspace s). lia. Qed.

(** C4 (as amended): for every text and every limit of at least one
    character, [clamp_title] returns a text within the limit unchanged and
    otherwise the first [max_chars - 1] characters, trailing white space
    trimmed, followed by one ellipsis character; the result has at most
    [max_chars] characters.  At the boundary, "12345" is unchanged under the
    limit 5 and "123456" becomes a 5-character string that ends in the
    ellipsis. *)
Theorem clamp_title_spec (text : pystr) (max_chars : Z) :
  (1 <= max_chars)%Z ->
  ((len text <= max_chars)%Z -> clamp_title text max_chars = text)
  /\ ((max_chars < len text)%Z ->
      clamp_title text max_chars
      = rstrip (firstn (Z.to_nat (max_chars - 1)) text) ++ py "…")
  /\ (len (clamp_title text max_chars) <= max_chars)%Z
  /\ clamp_title (py "12345") 5 = py "12345"
  /\ clamp_title (py "123456") 5 = py "1234" ++ py "…"
  /\ len (clamp_title (py "123456") 5) = 5%Z.
Proof.
  intros Hmax. unfold clamp_title.
  repeat split; try reflexivity.
  - intros Hle. destruct (Z.leb_spec (len text) max_chars); [reflexivity | lia].
  - intros Hgt. destruct (Z.leb_spec (len text) max_chars); [lia|].
    unfold slice_to. destruct (Z.leb_spec 0 (max_chars - 1)); [reflexivity | lia].
  - destruct (Z.leb_spec (len text) max_chars); [assumption|].
    rewrite len_app.
    pose proof (rstrip_len (slice_to text (max_chars - 1))).
    pose proof (slice_to_length text (max_chars - 1)).
    change (len (py "…")) with 1%Z. lia.
Qed.

Lemma clamp_title_spec_witness :
  (1 <= 5)%Z /\ (len (clamp_title (py "Troy  NY") 5) <= 5)%Z.
Proof.
  split; [lia|].
  exact (proj1 (proj2 (proj2 (clamp_title_spec (py "Troy  NY") 5 ltac:(lia))))).
Defined.

(** With a limit below one the result can be longer than the limit:
    [clamp_title("ab", 0)] is "a…", two characters. *)
Lemma clamp_title_zero_limit :
  clamp_title (py "ab") 0 = py "a…"
  /\ ~ (len (clamp_title (py "ab") 0) <= 0)%Z.
Proof.
  split; [reflexivity|]. vm_compute. intros H. apply H. reflexivity.
Qed.

(** ** Slug encoder *)




(** ** Deciding by evaluation *)



Lemma eqb_eq (a b : pystr) : eqb a b = true <-> a = b.
Proof.
  revert b. induction a as [|x a IH]; intros [|y b]; simpl; split;
    try reflexivity; try discriminate.
  - intros H. apply andb_prop in H. destruct H as [Hxy Hab].
    apply N.eqb_eq in Hxy. apply IH in Hab. congruence.
  - intros H. injection H as -> ->. rewrite N.eqb_refl. simpl. apply IH. reflexivity.
Qed.

Lemma inb_In (t : pystr) (l : list pystr) : inb t l = true <-> In t l.
Proof.
  induction l as [|x r IH]; simpl.
  - split; [discriminate | contradiction].
  - rewrite orb_true_iff, IH, eqb_eq. split; intros [H|H]; auto.
Qed.

Lemma inb_not_In (t : pystr) (l : list pystr) : inb t l = false -> ~ In t l.
Proof. intros H Hin. apply inb_In in Hin. congruence. Qed.

Lemma strs_eqb_eq (a b : list pystr) : strs_eqb a b = true -> a = b.
Proof.
  revert b. induction a as [|x a IH]; intros [|y b]; simpl;
    try reflexivity; try discriminate.
  intros H. apply andb_prop in H. destruct H as [Hxy Hab].
  apply eqb_eq in Hxy. apply IH in Hab. congruence.
Qed.

Lemma nodupb_NoDup (l : list pystr) : nodupb l = true -> NoDup l.
Proof.
  induction l as [|x r IH]; simpl; intros H; constructor.
  - apply andb_prop in H. destruct H as [H _].
    apply inb_not_In. destruct (inb x r); [discriminate H | reflexivity].
  - apply IH. apply andb_prop in H. apply H.
Qed.

Lemma forallb_Forall {A : Type} (f : A -> bool) (P : A -> Prop) (l : list A) :
  (forall x, f x = true -> P x) -> forallb f l = true -> Forall P l.
Proof.
  intros HP H. apply Forall_forall. intros x Hx. apply HP.
  revert x Hx. apply forallb_forall. exact H.
Qed.

Lemma existsb_In {A : Type} (f : A -> bool) (x : A) (l : list A) :
  (forall y, f y = true -> y = x) -> existsb f l = true -> In x l.
Proof.
  intros Hf H. apply existsb_exists in H. destruct H as [y [Hy Hfy]].
  rewrite <- (Hf y Hfy). exact Hy.
Qed.

Lemma entry_eqb_eq (e1 e2 : pystr * pystr) : entry_eqb e1 e2 = true -> e1 = e2.
Proof.
  destruct e1 as [a b], e2 as [c d]. unfold entry_eqb. simpl. intros H.
  apply andb_prop in H. destruct H as [H1 H2].
  apply eqb_eq in H1. apply eqb_eq in H2. congruence.
Qed.

Lemma In_roster (e : pystr * pystr) :
  existsb (fun x => entry_eqb x e) CITIES = true -> In e CITIES.
Proof. apply existsb_In. intros y. apply entry_eqb_eq. Qed.

Lemma common_only (a b : list pystr) (x : pystr) :
  forallb (fun t => negb (inb t b) || eqb t x) a = true ->
  forall t, In t a -> In t b -> t = x.
Proof.
  intros H t Ha Hb. rewrite forallb_forall in H. specialize (H t Ha).
  apply inb_In in Hb. rewrite Hb in H. simpl in H. apply eqb_eq. exact H.
Qed.

Lemma disjoint_lists (a b : list pystr) :
  forallb (fun t => negb (inb t b)) a = true ->
  forall t, In t a -> ~ In t b.
Proof.
  intros H t Ha. rewrite forallb_forall in H. specialize (H t Ha).
  apply inb_not_In. destruct (inb t b); [discriminate H | reflexivity].
Qed.

Lemma NoDup_map_injective {A : Type} (f : A -> pystr) (l : list A) :
  NoDup (map f l) -> forall x y, In x l -> In y l -> f x = f y -> x = y.
Proof.
  induction l as [|a l IH]; simpl; intros Hnd x y Hx Hy E; [contradiction|].
  inversion Hnd as [|? ? Hnotin Hnd']; subst.
  destruct Hx as [->|Hx], Hy as [->|Hy].
  - reflexivity.
  - exfalso. apply Hnotin. rewrite E. apply in_map. exact Hy.
  - exfalso. apply Hnotin. rewrite <- E. apply in_map. exact Hx.
  - exact (IH Hnd' x y Hx Hy E).
Qed.

(** ** Substrings *)

Lemma startswith_app (a b s : pystr) :
  startswith (a ++ b) s = true -> startswith a s = true.
Proof.
  revert s. induction a as [|x a IH]; intros s H; [reflexivity|].
  destruct s as [|y s]; simpl in *; [discriminate|].
  apply andb_prop in H. destruct H as [Hxy H]. rewrite Hxy. simpl.
  exact (IH s H).
Qed.

Lemma contains_app (a b s : pystr) :
  contains (a ++ b) s = true -> contains a s = true.
Proof.
  induction s as [|c s IH]; simpl; intros H.
  - exact (startswith_app a b [] H).
  - apply orb_true_iff in H. apply orb_true_iff. destruct H as [H|H].
    + left. exact (startswith_app a b (c :: s) H).
    + right. exact (IH H).
Qed.

Lemma not_contains_app (a b s : pystr) :
  contains a s = false -> contains (a ++ b) s = false.
Proof.
  intros H. destruct (contains (a ++ b) s) eqn:E; [|reflexivity].
  apply contains_app in E. congruence.
Qed.

Lemma esc_app (a b : pystr) : esc (a ++ b) = esc a ++ esc b.
Proof. unfold esc, replace_char. repeat rewrite flat_map_app. reflexivity. Qed.

(** ** Pages *)

Lemma title_is_h1b_sound (doc : pystr) : title_is_h1b doc = true -> title_is_h1 doc.
Proof.
  unfold title_is_h1b, title_is_h1.
  destruct (title_texts doc) as [|t [|? ?]]; try discriminate.
  destruct (h1_texts doc) as [|t' [|? ?]]; try discriminate.
  intros H. apply andb_prop in H. destruct H as [Ht Hn].
  apply eqb_eq in Ht. apply Nat.eqb_eq in Hn. subst t'.
  exists t. auto.
Qed.

Lemma page_checks_sound (page : pystr) (expected : list pystr) :
  page_checks page expected = true ->
  title_is_h1 page /\ headings page = expected
  /\ contains (py "Serving ") page = false
  /\ decorated_heading_tags page = O.
Proof.
  unfold page_checks. intros H.
  apply andb_prop in H. destruct H as [H Htags].
  apply andb_prop in H. destruct H as [H Hserving].
  apply andb_prop in H. destruct H as [Htitle Hheadings].
  repeat split.
  - exact (title_is_h1b_sound page Htitle).
  - exact (strs_eqb_eq _ _ Hheadings).
  - destruct (contains (py "Serving ") page); [discriminate Hserving | reflexivity].
  - apply Nat.eqb_eq. exact Htags.
Qed.

(** The three core pages and the 356 city pages are generated and read
    here, once. *)
Lemma homepage_checks :
  page_checks homepage_html
    ([esc H1_TITLE] ++ map esc (firstn 6 H2_SHARED)
     ++ [py "Choose your city"; py "Next steps"]) = true.
Proof. by_eval. Qed.

Lemma cost_page_checks :
  page_checks cost_page_html
    ([esc COST_TITLE] ++ map esc H2_COST ++ [py "Next steps"]) = true.
Proof. by_eval. Qed.

Lemma howto_page_checks :
  page_checks howto_page_html
    ([esc HOWTO_TITLE] ++ map esc (firstn 6 H2_HOWTO) ++ [py "Next steps"]) = true.
Proof. by_eval. Qed.

Lemma city_pages_checks : forallb city_page_checks CITIES = true.
Proof. by_eval. Qed.

Lemma city_pages_sound (P : pystr * pystr -> Prop) :
  (forall e, city_page_checks e = true -> P e) -> Forall P CITIES.
Proof.
  intros HP. exact (forallb_Forall city_page_checks P CITIES HP city_pages_checks).
Qed.

Lemma generated_pages_eq :
  generated_pages
  = [homepage_html; cost_page_html; howto_page_html]
    ++ map (fun e => city_page_html (fst e) (snd e)) CITIES.
Proof.
  unfold generated_pages, core_pages, city_pages.
  rewrite map_app, map_map. cbn [map snd].
  apply (f_equal (app [homepage_html; cost_page_html; howto_page_html])).
  apply map_ext. intros [city state]. reflexivity.
Qed.

Lemma Forall_generated_pages (P : pystr -> Prop) :
  P homepage_html -> P cost_page_html -> P howto_page_html ->
  Forall (fun e => P (city_page_html (fst e) (snd e))) CITIES ->
  Forall P generated_pages.
Proof.
  intros Hhome Hcost Hhowto Hcities. rewrite generated_pages_eq.
  apply Forall_app. split.
  - repeat constructor; assumption.
  - apply Forall_map. exact Hcities.
Qed.

(** C1: on the home page, the cost page, the how-to page and the page of
    every roster city, the text of the title element equals the text of the
    h1 element, and the page has one h1 element only. *)
Theorem title_equals_h1 :
  title_is_h1 homepage_html
  /\ title_is_h1 cost_page_html
  /\ title_is_h1 howto_page_html
  /\ Forall (fun e => title_is_h1 (city_page_html (fst e) (snd e))) CITIES.
Proof.
  split; [exact (proj1 (page_checks_sound _ _ homepage_checks))|].
  split; [exact (proj1 (page_checks_sound _ _ cost_page_checks))|].
  split; [exact (proj1 (page_checks_sound _ _ howto_page_checks))|].
  apply city_pages_sound. intros e He.
  exact (proj1 (page_checks_sound _ _ He)).
Qed.

(** ** Content sections *)

(** The shared block is the first six sections of its table, each paragraph
    closed by "</</p>"; [local_line] has no part in it. *)
Lemma shared_sections_html_sections (local_line : option pystr) :
  shared_sections_html local_line
  = rstrip (List.concat (map (section_html (py "</</p>"))
                           (firstn 6 (combine H2_SHARED P_SHARED)))).
Proof. by_eval. Qed.

Lemma howto_sections_html_sections :
  howto_sections_html
  = rstrip (List.concat (map (section_html (py "</p>"))
                           (firstn 6 (combine H2_HOWTO P_HOWTO)))).
Proof. by_eval. Qed.

Lemma cost_sections_html_sections :
  startswith (List.concat (map (section_html (py "</p>")) (combine H2_COST P_COST)))
    cost_sections_html = true.
Proof. by_eval. Qed.

(** C2: the Shared and the How-To tables have seven entries each, and their
    generators render the first six only: the seventh heading and the seventh
    paragraph are in neither block (nor on the home page or the how-to page).
    The Cost generator renders all six entries of its table, in order. *)
Theorem sections_omit_seventh_entry :
  List.length H2_SHARED = 7%nat /\ List.length P_SHARED = 7%nat
  /\ List.length H2_HOWTO = 7%nat /\ List.length P_HOWTO = 7%nat
  /\ List.length H2_COST = 6%nat /\ List.length P_COST = 6%nat
  /\ shared_sections_html None
     = rstrip (List.concat (map (section_html (py "</</p>"))
                              (firstn 6 (combine H2_SHARED P_SHARED))))
  /\ contains (esc (item H2_SHARED 6)) (shared_sections_html None) = false
  /\ contains (esc (item P_SHARED 6)) (shared_sections_html None) = false
  /\ contains (esc (item H2_SHARED 6)) homepage_html = false
  /\ howto_sections_html
     = rstrip (List.concat (map (section_html (py "</p>"))
                              (firstn 6 (combine H2_HOWTO P_HOWTO))))
  /\ contains (esc (item H2_HOWTO 6)) howto_sections_html = false
  /\ contains (esc (item P_HOWTO 6)) howto_sections_html = false
  /\ contains (esc (item H2_HOWTO 6)) howto_page_html = false
  /\ startswith (List.concat (map (section_html (py "</p>")) (combine H2_COST P_COST)))
       cost_sections_html = true.
Proof.
  repeat split; try reflexivity; try (by_eval).
Qed.

(** C9: whatever the local line, each of the six paragraph bodies of the
    shared block is followed by "</</p>", no paragraph has a well-formed
    close, and the block has no closing p tag besides these six. *)
Theorem shared_paragraphs_malformed_close (local_line : option pystr) :
  Forall (fun p =>
            contains (py "<p>" ++ esc p ++ py "</</p>") (shared_sections_html local_line) = true
            /\ contains (py "<p>" ++ esc p ++ py "</p>") (shared_sections_html local_line) = false)
         [item P_SHARED 0; item P_SHARED 1; item P_SHARED 2;
          item P_SHARED 3; item P_SHARED 4; item P_SHARED 5]
  /\ occurrences (py "</</p>") (shared_sections_html local_line) = 6%nat
  /\ occurrences (py "</p>") (shared_sections_html local_line) = 6%nat.
Proof.
  rewrite shared_sections_html_sections.
  split; [|split; by_eval].
  repeat constructor; by_eval.
Qed.

(** The word every local line begins with is on no generated page. *)
Lemma no_page_contains_serving :
  Forall (fun page => contains (py "Serving ") page = false) generated_pages.
Proof.
  apply Forall_generated_pages.
  - exact (proj1 (proj2 (proj2 (page_checks_sound _ _ homepage_checks)))).
  - exact (proj1 (proj2 (proj2 (page_checks_sound _ _ cost_page_checks)))).
  - exact (proj1 (proj2 (proj2 (page_checks_sound _ _ howto_page_checks)))).
  - apply city_pages_sound. intros e He.
    exact (proj1 (proj2 (proj2 (page_checks_sound _ _ He)))).
Qed.

(** C10: the shared block does not depend on [local_line], and the line
    "Serving {city}, {state}." that [city_page_html] passes is on no
    generated page, neither as it is nor escaped. *)
Theorem local_line_ignored :
  (forall x y : option pystr, shared_sections_html x = shared_sections_html y)
  /\ (forall city state : pystr,
        Forall (fun page =>
                  contains (py "Serving " ++ city ++ py ", " ++ state ++ py ".") page = false
                  /\ contains (esc (py "Serving " ++ city ++ py ", " ++ state ++ py ".")) page = false)
               generated_pages).
Proof.
  split; [reflexivity|].
  intros city state. eapply Forall_impl; [|exact no_page_contains_serving].
  intros page H. simpl in H. split.
  - apply not_contains_app. exact H.
  - rewrite esc_app. apply not_contains_app. exact H.
Qed.

(** ** Heading sets *)

(** Every heading start tag of every generated page is plain, so that
    [headings] reads all heading elements. *)
Lemma heading_tags_are_plain :
  Forall (fun page => decorated_heading_tags page = O) generated_pages.
Proof.
  apply Forall_generated_pages.
  - exact (proj2 (proj2 (proj2 (page_checks_sound _ _ homepage_checks)))).
  - exact (proj2 (proj2 (proj2 (page_checks_sound _ _ cost_page_checks)))).
  - exact (proj2 (proj2 (proj2 (page_checks_sound _ _ howto_page_checks)))).
  - apply city_pages_sound. intros e He.
    exact (proj2 (proj2 (proj2 (page_checks_sound _ _ He)))).
Qed.

Lemma headings_homepage :
  headings homepage_html
  = [esc H1_TITLE] ++ map esc (firstn 6 H2_SHARED)
    ++ [py "Choose your city"; py "Next steps"].
Proof. exact (proj1 (proj2 (page_checks_sound _ _ homepage_checks))). Qed.

Lemma headings_city_pages :
  Forall (fun e =>
            headings (city_page_html (fst e) (snd e))
            = [esc (city_h1 H1_TITLE (fst e) (snd e))] ++ map esc (firstn 6 H2_SHARED)
              ++ [py "Wasp Nest Removal Cost"; py "Next steps"])
         CITIES.
Proof.
  apply city_pages_sound. intros e He.
  exact (proj1 (proj2 (page_checks_sound _ _ He))).
Qed.

Lemma headings_cost_page :
  headings cost_page_html = [esc COST_TITLE] ++ map esc H2_COST ++ [py "Next steps"].
Proof. exact (proj1 (proj2 (page_checks_sound _ _ cost_page_checks))). Qed.

Lemma headings_howto_page :
  headings howto_page_html
  = [esc HOWTO_TITLE] ++ map esc (firstn 6 H2_HOWTO) ++ [py "Next steps"].
Proof. exact (proj1 (proj2 (page_checks_sound _ _ howto_page_checks))). Qed.

Lemma headings_shared_block (local_line : option pystr) :
  headings (shared_sections_html local_line) = map esc (firstn 6 H2_SHARED).
Proof. rewrite shared_sections_html_sections. by_eval. Qed.

(** C3 (as amended): the home page and the page of every roster city carry
    the same six headings of the shared block, in the same order, and the
    same footer heading; besides these the home page has the heading
    "Choose your city" where a city page has "Wasp Nest Removal Cost", and
    the h1 of a city page names the city. *)
Theorem shared_headings_parity :
  headings homepage_html
  = [esc H1_TITLE] ++ map esc (firstn 6 H2_SHARED)
    ++ [py "Choose your city"; py "Next steps"]
  /\ Forall (fun e =>
               headings (city_page_html (fst e) (snd e))
               = [esc (city_h1 H1_TITLE (fst e) (snd e))] ++ map esc (firstn 6 H2_SHARED)
                 ++ [py "Wasp Nest Removal Cost"; py "Next steps"])
            CITIES.
Proof. split; [exact headings_homepage | exact headings_city_pages]. Qed.

(** The heading sets of the home page and of the page of the first roster
    city differ: "Choose your city" is a heading of the home page only. *)
Lemma home_and_city_headings_differ :
  In (py "New York", py "NY") CITIES
  /\ ~ same_set (headings homepage_html)
                (headings (city_page_html (py "New York") (py "NY"))).
Proof.
  split; [left; reflexivity|].
  intros H. destruct (H (py "Choose your city")) as [Hhome _].
  pose proof headings_city_pages as Hcity.
  apply Forall_inv in Hcity. simpl fst in Hcity. simpl snd in Hcity.
  rewrite headings_homepage in Hhome. rewrite Hcity in Hhome.
  refine (inb_not_In _ _ _ (Hhome _)).
  - by_eval.
  - refine (proj1 (inb_In _ _) _). by_eval.
Qed.

(** C7 (as amended): the cost page and the how-to page share no heading text
    but the footer heading "Next steps", which every page carries; neither
    has a heading of the shared block, and the three heading tables are
    pairwise disjoint. *)
Theorem content_headings_disjoint :
  (forall t, In t (headings cost_page_html) -> In t (headings howto_page_html) ->
             t = py "Next steps")
  /\ (forall t, In t (headings (shared_sections_html None)) ->
                ~ In t (headings cost_page_html))
  /\ (forall t, In t (headings (shared_sections_html None)) ->
                ~ In t (headings howto_page_html))
  /\ (forall t, In t H2_COST -> ~ In t H2_HOWTO)
  /\ (forall t, In t H2_COST -> ~ In t H2_SHARED)
  /\ (forall t, In t H2_HOWTO -> ~ In t H2_SHARED).
Proof.
  rewrite headings_cost_page, headings_howto_page, headings_shared_block.
  split; [apply common_only; by_eval|].
  repeat split; apply disjoint_lists; by_eval.
Qed.

Lemma content_headings_disjoint_witness :
  In (py "Why Woodpeckers Peck on Houses") (headings (shared_sections_html None))
  /\ ~ In (py "Why Woodpeckers Peck on Houses") (headings cost_page_html).
Proof.
  assert (Hin : In (py "Why Woodpeckers Peck on Houses")
                   (headings (shared_sections_html None))).
  { rewrite headings_shared_block. refine (proj1 (inb_In _ _) _). by_eval. }
  split; [exact Hin|].
  exact (proj1 (proj2 content_headings_disjoint) _ Hin).
Defined.

(** "Next steps" is a heading of the cost page and of the how-to page. *)
Lemma footer_heading_on_cost_and_howto :
  In (py "Next steps") (headings cost_page_html)
  /\ In (py "Next steps") (headings howto_page_html).
Proof.
  rewrite headings_cost_page, headings_howto_page.
  split; refine (proj1 (inb_In _ _) _); by_eval.
Qed.

(** ** Roster paths *)

(** C6: for every roster entry the combined slug is not empty, holds only
    lowercase letters, digits and hyphens, no two hyphens in a row and none
    first or last; distinct roster entries have distinct combined slugs, and
    the two Washington entries give washington-dc and washington-nc. *)
Theorem roster_slugs :
  Forall (fun e => well_formed_slug (city_state_slug (fst e) (snd e)) = true) CITIES
  /\ (forall e1 e2, In e1 CITIES -> In e2 CITIES -> e1 <> e2 ->
        city_state_slug (fst e1) (snd e1) <> city_state_slug (fst e2) (snd e2))
  /\ In (py "Washington", py "DC") CITIES
  /\ In (py "Washington", py "NC") CITIES
  /\ city_state_slug (py "Washington") (py "DC") = py "washington-dc"
  /\ city_state_slug (py "Washington") (py "NC") = py "washington-nc".
Proof.
  split.
  { apply (forallb_Forall
             (fun e => negb (eqb (slugify (fst e)) []) && negb (eqb (slugify (snd e)) []))).
    - intros e H. apply andb_prop in H. destruct H as [Hc Hs].
      apply city_state_slug_well_formed; intros E; rewrite E in *; discriminate.
    - by_eval. }
  split.
  { intros e1 e2 H1 H2 Hne E. apply Hne.
    apply (NoDup_map_injective (fun e => city_state_slug (fst e) (snd e)) CITIES);
      try assumption.
    apply nodupb_NoDup. by_eval. }
  repeat split; try reflexivity; apply In_roster; by_eval.
Qed.

Lemma roster_slugs_witness :
  In (py "Washington", py "DC") CITIES
  /\ In (py "Washington", py "NC") CITIES
  /\ (py "Washington", py "DC") <> (py "Washington", py "NC")
  /\ city_state_slug (py "Washington") (py "DC") <> city_state_slug (py "Washington") (py "NC").
Proof.
  assert (H1 : In (py "Washington", py "DC") CITIES) by (apply In_roster; by_eval).
  assert (H2 : In (py "Washington", py "NC") CITIES) by (apply In_roster; by_eval).
  assert (Hne : (py "Washington", py "DC") <> (py "Washington", py "NC")).
  { intros E. vm_compute in E. discriminate E. }
  repeat split; try assumption.
  exact (proj1 (proj2 roster_slugs) _ _ H1 H2 Hne).
Defined.

(** ** Sitemap *)

(** Inside a loc element the reader passes over a text without "<". *)
Lemma scan_text (op cl' : pystr) (u acc rest : pystr) :
  no_lt u = true ->
  scan op (60 :: cl') O (Some acc) (u ++ rest)
  = scan op (60 :: cl') O (Some (rev u ++ acc)) rest.
Proof.
  revert acc. induction u as [|c u IH]; intros acc Hu; [reflexivity|].
  cbn [no_lt forallb] in Hu. apply andb_prop in Hu. destruct Hu as [Hc Hu].
  cbn [app scan startswith].
  replace (60 =? c) with false.
  - cbn [andb]. etransitivity; [exact (IH (c :: acc) Hu)|].
    cbn [rev]. rewrite <- app_assoc. reflexivity.
  - symmetry. rewrite N.eqb_sym. destruct (c =? 60); [discriminate Hc | reflexivity].
Qed.

Lemma scan_sitemap_entry (u rest : pystr) :
  no_lt u = true ->
  scan (py "<loc>") (py "</loc>") O None (sitemap_entry u ++ rest)
  = u :: scan (py "<loc>") (py "</loc>") O None rest.
Proof.
  intros Hu. unfold sitemap_entry.
  change (py "<loc>") with [60; 108; 111; 99; 62].
  change (py "</loc>") with [60; 47; 108; 111; 99; 62].
  change (py "  <url><loc>") with [32; 32; 60; 117; 114; 108; 62; 60; 108; 111; 99; 62].
  change (py "</loc></url>
") with [60; 47; 108; 111; 99; 62; 60; 47; 117; 114; 108; 62; 10].
  repeat rewrite <- app_assoc. simpl.
  rewrite scan_text by exact Hu. simpl. rewrite app_nil_r, rev_involutive.
  reflexivity.
Qed.

Lemma scan_sitemap_entries (urls : list pystr) (rest : pystr) :
  forallb no_lt urls = true ->
  scan (py "<loc>") (py "</loc>") O None (List.concat (map sitemap_entry urls) ++ rest)
  = urls ++ scan (py "<loc>") (py "</loc>") O None rest.
Proof.
  induction urls as [|u urls IH]; intros H; [reflexivity|].
  cbn [forallb] in H. apply andb_prop in H. destruct H as [Hu H].
  cbn [map List.concat]. rewrite <- app_assoc.
  rewrite scan_sitemap_entry by exact Hu.
  rewrite IH by exact H. reflexivity.
Qed.

(** Reading the loc elements of a sitemap gives back the paths it was
    written from, in order. *)
Lemma sitemap_xml_locs (urls : list pystr) :
  forallb no_lt urls = true ->
  element_texts (py "loc") (sitemap_xml urls) = urls.
Proof.
  intros H. unfold element_texts, sitemap_xml.
  change (py "<" ++ py "loc" ++ py ">") with (py "<loc>").
  change (py "</" ++ py "loc" ++ py ">") with (py "</loc>").
  rewrite <- (app_nil_r urls) at 2.
  change (@nil pystr) with (scan (py "<loc>") (py "</loc>") O None (py "</urlset>
")).
  rewrite <- (scan_sitemap_entries urls _ H).
  generalize (List.concat (map sitemap_entry urls) ++ py "</urlset>
").
  intros rest. by_eval.
Qed.

(** C8: sitemap.xml is the XML declaration, the urlset start tag with the
    sitemap namespace, one url element holding one loc element per path, and
    the urlset end tag; the paths are /, /cost/, /how-to/ and then the path
    of every roster city in roster order. *)
Theorem sitemap_lists_site_paths :
  sitemap_xml main_urls
  = tpl "<?xml version=`1.0` encoding=`UTF-8`?>
<urlset xmlns=`http://www.sitemaps.org/schemas/sitemap/0.9`>
"
    ++ List.concat (map (fun u => py "  <url><loc>" ++ u ++ py "</loc></url>
")
                      ([py "/"; py "/cost/"; py "/how-to/"]
                       ++ map (fun e => py "/" ++ city_state_slug (fst e) (snd e) ++ py "/") CITIES))
    ++ py "</urlset>
"
  /\ element_texts (py "loc") (sitemap_xml main_urls)
     = [py "/"; py "/cost/"; py "/how-to/"]
       ++ map (fun e => py "/" ++ city_state_slug (fst e) (snd e) ++ py "/") CITIES
  /\ occurrences (py "<url>") (sitemap_xml main_urls) = (3 + List.length CITIES)%nat
  /\ occurrences (py "<url><loc>") (sitemap_xml main_urls) = (3 + List.length CITIES)%nat
  /\ occurrences (py "<loc>") (sitemap_xml main_urls) = (3 + List.length CITIES)%nat
  /\ occurrences (py "</loc></url>") (sitemap_xml main_urls) = (3 + List.length CITIES)%nat.
Proof.
  split; [by_eval|].
  split; [exact (sitemap_xml_locs main_urls ltac:(by_eval))|].
  repeat split; apply Nat.eqb_eq; by_eval.
Qed.
